(** * spatial-image-multiscale: pyramid construction and NGFF metadata

    A shallow embedding of [spatial_image_multiscale.py]:
    - [to_multiscale], the pyramid builder, and
    - [MultiscaleSpatialImage.to_zarr], the metadata serializer.

    The program computes on NumPy numbers.  The embedding leaves their
    arithmetic open (class [Arithmetic]): every statement below holds for
    whatever the reduction and the subtraction of the array library compute,
    rounding included.  The sample arrays are evaluated with exact rationals;
    their values are small binary fractions. *)

From Stdlib Require Import QArith.
From stdpp Require Import base option list list_monad strings pretty gmap.

Local Close Scope Q_scope.

Set Warnings "-register-all".

(** ** Numbers *)

Class Arithmetic (num : Type) : Type := {
  (** the reduction [mean] over the cells of one window, in row-major order *)
  mean : list num → num;
  (** [a - b] on coordinate values *)
  sub : num → num → num;
  (** [float(a)] *)
  float : num → num;
  (** the literals [1.0] and [0.0] *)
  one : num;
  zero : num
}.

(** ** Python dictionaries whose iteration order matters

    [d[k] = v]: an existing key keeps its position and takes the new value, a
    new key goes last. *)

Fixpoint dict_set {V : Type} (k : string) (v : V) (d : list (string * V))
  : list (string * V) :=
  match d with
  | [] => [(k, v)]
  | (k', v') :: d' =>
      if decide (k = k') then (k, v) :: d' else (k', v') :: dict_set k v d'
  end.

Fixpoint dict_get {V : Type} (k : string) (d : list (string * V)) : option V :=
  match d with
  | [] => None
  | (k', v') :: d' => if decide (k = k') then Some v' else dict_get k d'
  end.

(** ** Row-major indexing *)

(** The number of cells of a shape. *)
Definition size (shape : list nat) : nat := foldr Nat.mul 1 shape.

(** All multi-indices of a shape, in row-major order. *)
Fixpoint indices (shape : list nat) : list (list nat) :=
  match shape with
  | [] => [[]]
  | n :: shape' => mjoin ((λ i, (λ idx, i :: idx) <$> indices shape') <$> seq 0 n)
  end.

(** The position of a multi-index in the row-major data. *)
Fixpoint ravel (shape idx : list nat) : nat :=
  match shape, idx with
  | _ :: shape', i :: idx' => i * size shape' + ravel shape' idx'
  | _, _ => 0
  end.

(** [pieces n k l]: the first [n] consecutive pieces of [l], [k] cells each. *)
Fixpoint pieces {A : Type} (n k : nat) (l : list A) : list (list A) :=
  match n with
  | O => []
  | S n' => take k l :: pieces n' k (drop k l)
  end.

(** The [chunks] argument of [to_multiscale]. *)
Inductive ChunkEntry : Type :=
| CNone
| CInt (n : Z)
| CTuple (t : list Z).

Inductive ChunkSpec : Type :=
| ChunkInt (n : Z)
| ChunkTuple (t : list Z)
| ChunkTuples (t : list (list Z))
| ChunkMapping (m : list (string * ChunkEntry)).

Inductive Side : Type := SideLeft | SideRight.

(** Boundary ["trim"] on a dimension of [n] cells with windows of [w]: the
    number of cells dropped before the first window.  Side ["left"] starts
    the windows at the first cell ([isel(slice(0, window * n))]); side
    ["right"] ends them at the last cell ([isel(slice(excess, None))]), so
    the cells left over are the leading ones.  The library's own test
    coarsens [0, 1, 2, 3, 4] by 2 with boundary ["trim"] and side ["right"]
    to [1.5, 3.5]; see [coarsen_values_right] below. *)
Definition excess (side : Side) (n w : nat) : nat :=
  match side with
  | SideLeft => 0
  | SideRight => n - w * (n / w)
  end.

Definition trim {A : Type} (side : Side) (w : nat) (l : list A) : list A :=
  let n := (length l / w)%nat in
  match side with
  | SideLeft => take (w * n) l
  | SideRight => drop (length l - w * n) l
  end.

(** The multi-index of the input cell at offset [t] in the window block of
    the output multi-index [idx]. *)
Fixpoint source (side : Side) (shape windows idx t : list nat) : list nat :=
  match shape, windows, idx, t with
  | n :: shape', w :: windows', i :: idx', k :: t' =>
      (excess side n w + i * w + k) :: source side shape' windows' idx' t'
  | _, _, _, _ => []
  end.

Inductive Method : Type := XARRAY_COARSEN.

(** One element of [scale_factors]: an [int] or a [Dict[str, int]]. *)
Inductive ScaleFactor : Type :=
| SFInt (f : Z)
| SFDict (m : gmap string Z).

Definition _spatial_dims : gset string := {[ "x"; "y"; "z" ]}.

Fixpoint strip_prefix (p s : string) : option string :=
  match p with
  | EmptyString => Some s
  | String c p' =>
      match s with
      | EmptyString => None
      | String c' s' => if decide (c = c') then strip_prefix p' s' else None
      end
  end.

Inductive Exception (E : Type) : Type :=
| IndexError
| StoreError (e : E).
Arguments IndexError {E}.
Arguments StoreError {E} e.

Inductive Outcome (E : Type) : Type :=
| Returned
| Raised (e : Exception E).
Arguments Returned {E}.
Arguments Raised {E} e.

Section Model.
Context {num : Type} `{Arithmetic num}.

(** ** Attribute values

    Attribute dictionaries (the NGFF document among them) hold JSON-like
    values; a Python dict literal is a [JDict] in insertion order. *)

Inductive json : Type :=
| JStr (s : string)
| JNum (q : num)
| JList (l : list json)
| JDict (kv : list (string * json)).

(** ** Labeled arrays *)

(** A coordinate variable: its position values and its attrs. *)
Record Coordinate : Type := {
  co_values : list num;
  co_attrs : gmap string json
}.

(** One dimension of an array: the label and the coordinate along it.  The
    extent of the dimension is the number of coordinate values. *)
Record Axis : Type := {
  ax_label : string;
  ax_coord : Coordinate
}.

Definition extent (a : Axis) : nat := length (co_values (ax_coord a)).

(** A [SpatialImage] (an xarray [DataArray]): name, dimensions in order with
    their coordinates, the names of the coordinates (the keys of [coords],
    so each name once) in the order in which they were attached, the values
    in row-major order, and the chunking. *)
Record DataArray : Type := {
  da_name : string;
  da_axes : list Axis;
  da_coord_names : list string;
  da_data : list num;
  da_chunks : option ChunkSpec
}.

Definition dims (image : DataArray) : list string := ax_label <$> da_axes image.
Definition shape (image : DataArray) : list nat := extent <$> da_axes image.

(** *** [image.chunk(chunks)]

    The chunking belongs to the array library.  It is modelled after the
    library: a specification is brought to a mapping from dimension to entry
    (an [int] stands for every dimension, a tuple is paired with the
    dimensions in order); a key that is no dimension of the array is an
    error; a size must be positive or [-1] (the whole dimension) unless the
    dimension is empty, so a size of [0] is an error; explicit sizes must be
    non-negative and add up to the extent.  Re-chunking changes nothing but
    the chunking. *)

Definition normalize_chunks (chunks : ChunkSpec) (image : DataArray)
  : list (string * ChunkEntry) :=
  match chunks with
  | ChunkInt n => (λ d, (d, CInt n)) <$> dims image
  | ChunkTuple t => zip (dims image) (CInt <$> t)
  | ChunkTuples t => zip (dims image) (CTuple <$> t)
  | ChunkMapping m => m
  end.

Definition entry_ok (n : nat) (entry : ChunkEntry) : bool :=
  match entry with
  | CNone => true
  | CInt c => bool_decide (0 < c)%Z || bool_decide (c = -1)%Z || bool_decide (n = 0)
  | CTuple t =>
      forallb (λ c, bool_decide (0 ≤ c)%Z) t
      && bool_decide (foldr Z.add 0%Z t = Z.of_nat n)
  end.

Definition chunk_ok (chunks : ChunkSpec) (image : DataArray) : bool :=
  let m := normalize_chunks chunks image in
  forallb (λ d, bool_decide (d ∈ dims image)) m.*1
  && forallb (λ a, match dict_get (ax_label a) m with
                   | Some entry => entry_ok (extent a) entry
                   | None => true
                   end)
             (da_axes image).

Definition chunk (chunks : ChunkSpec) (image : DataArray) : option DataArray :=
  if chunk_ok chunks image then
    Some {| da_name := da_name image;
            da_axes := da_axes image;
            da_coord_names := da_coord_names image;
            da_data := da_data image;
            da_chunks := Some chunks |}
  else None.

(** An xarray [Dataset]: named variables, its dimensions in its own order
    with their coordinates, and attrs. *)
Record Dataset : Type := {
  ds_data_vars : list (string * DataArray);
  ds_axes : list Axis;
  ds_attrs : list (string * json)
}.

Definition ds_dims (ds : Dataset) : list string := ax_label <$> ds_axes ds.

(** [ds.coords[dim]]: the coordinate of the dimension labeled [dim]. *)
Definition ds_coords (ds : Dataset) (dim : string) : Coordinate :=
  match find (λ a, bool_decide (ax_label a = dim)) (ds_axes ds) with
  | Some a => ax_coord a
  | None => {| co_values := []; co_attrs := ∅ |}
  end.

(** The dimensions of a dataset come in the order in which its variables
    bring them: the coordinates first, in the order in which they were
    attached, then the dimensions of the data that no coordinate brought.
    A name that is no dimension brings none; [coord_names] are keys, and a
    name listed twice would count once. *)
Definition dataset_order (coord_names : list string) (axes : list Axis)
  : list Axis :=
  omap (λ d, find (λ a, bool_decide (ax_label a = d)) axes) (remove_dups coord_names)
  ++ filter (λ a, ax_label a ∉ coord_names) axes.

(** [image.to_dataset(name=...)]. *)
Definition to_dataset (name : string) (image : DataArray) : Dataset :=
  {| ds_data_vars := [(name, image)];
     ds_axes := dataset_order (da_coord_names image) (da_axes image);
     ds_attrs := [] |}.

Definition empty_dataset : Dataset :=
  {| ds_data_vars := []; ds_axes := []; ds_attrs := [] |}.

(** ** The aggregation primitive: [coarsen(dim, boundary="trim", side).mean()]

    The primitive belongs to the array library, not to this repository.  It
    is modelled after the library: the array is cut into non-overlapping
    blocks, with a window of the given size along each named dimension (and
    of one cell along the others), and each block is replaced by the [mean]
    of its cells; the coordinate of a named dimension is reduced window by
    window in the same way.  A window for a dimension the array does not
    have, a window that is not positive and a window of 2^63 or more are
    errors.  An empty [dim] returns the array as it is. *)

(** Coarsening a one-dimensional sequence. *)
Definition coarsen_values (side : Side) (w : nat) (l : list num) : list num :=
  mean <$> pieces (length l / w) w (trim side w l).

Definition coarsen_axis (side : Side) (dim : gmap string Z) (a : Axis) : Axis :=
  match dim !! ax_label a with
  | Some w =>
      {| ax_label := ax_label a;
         ax_coord :=
           {| co_values := coarsen_values side (Z.to_nat w) (co_values (ax_coord a));
              co_attrs := co_attrs (ax_coord a) |} |}
  | None => a
  end.

(** The window along each dimension of the array. *)
Definition windows (dim : gmap string Z) (axes : list Axis) : list nat :=
  (λ a, match dim !! ax_label a with
        | Some w => Z.to_nat w
        | None => 1
        end) <$> axes.

(** The cells of the block of the output multi-index [idx]. *)
Definition block (side : Side) (shape windows : list nat) (data : list num)
    (idx : list nat) : list num :=
  omap (λ t, data !! ravel shape (source side shape windows idx t))
       (indices windows).

(** Coarsening row-major data of the given shape. *)
Definition coarsen_cells (side : Side) (shape windows : list nat)
    (data : list num) : list num :=
  (λ idx, mean (block side shape windows data idx))
    <$> indices (zip_with Nat.div shape windows).

Definition coarsen_trim_mean (dim : gmap string Z) (side : Side)
    (image : DataArray) : option DataArray :=
  if decide (map_Forall (λ d w, d ∈ dims image ∧ (0 < w < 2 ^ 63)%Z) dim) then
    if decide (dim = ∅) then Some image
    else
      Some {| da_name := da_name image;
              da_axes := coarsen_axis side dim <$> da_axes image;
              da_coord_names := da_coord_names image;
              da_data := coarsen_cells side (shape image)
                           (windows dim (da_axes image)) (da_data image);
              da_chunks := da_chunks image |}
  else None.

(** ** The multiscale container *)

(** A child node of the tree: its name and the dataset it holds. *)
Record TreeNode : Type := {
  node_name : string;
  node_ds : Dataset
}.

(** [MultiscaleSpatialImage]: the root's name, the root's own dataset (whose
    attrs receive the metadata) and the children in order. *)
Record MultiscaleSpatialImage : Type := {
  ms_name : string;
  ms_ds : Dataset;
  ms_children : list TreeNode
}.

(** [MultiscaleSpatialImage.from_dict(name, data_objects)] for the paths the
    builder produces, [name/child]: one child per entry, in the order of the
    dictionary, named by the part of the path after the root's name.  A path
    that does not start at the root is an error. *)
Definition from_dict (name : string) (data_objects : list (string * Dataset))
  : option MultiscaleSpatialImage :=
  children ← mapM (λ '(path, ds),
                     child ← strip_prefix (name +:+ "/") path;
                     Some {| node_name := child; node_ds := ds |})
                  data_objects;
  Some {| ms_name := name; ms_ds := empty_dataset; ms_children := children |}.

(** ** [to_multiscale] *)

(** The default chunking (the [chunks is None] branch). *)
Definition default_chunks (image : DataArray) : ChunkSpec :=
  let chunks := if bool_decide ("z" ∈ dims image) then 64%Z else 256%Z in
  let chunks := foldl (λ acc d, dict_set d (CInt chunks) acc) [] (dims image) in
  let chunks := if bool_decide ("t" ∈ dims image)
                then dict_set "t" (CInt 1) chunks else chunks in
  ChunkMapping chunks.

(** The per-transition dimension mapping (the [isinstance] branch). *)
Definition resolve_dim (image : DataArray) (scale_factor : ScaleFactor)
  : gmap string Z :=
  match scale_factor with
  | SFInt f => gset_to_gmap f (_spatial_dims ∩ list_to_set (dims image))
  | SFDict m => m
  end.

(** The aggregation of one pass through the loop body:
    [current_input.coarsen(dim=dim, boundary="trim", side="right").mean()]. *)
Definition aggregate (image current_input : DataArray)
    (scale_factor : ScaleFactor) : option DataArray :=
  let dim := resolve_dim image scale_factor in
  coarsen_trim_mean dim SideRight current_input.

(** One pass through the loop body, up to the re-chunked [downscaled]. *)
Definition downscale (image current_input : DataArray) (chunks : ChunkSpec)
    (scale_factor : ScaleFactor) : option DataArray :=
  downscaled ← aggregate image current_input scale_factor;
  chunk chunks downscaled.

(** The loop over [enumerate(scale_factors)], from index [factor_index] on.
    [current_input] is the loop's input array; the body never reassigns it. *)
Fixpoint build_levels (image current_input : DataArray) (chunks : ChunkSpec)
    (factor_index : nat) (scale_factors : list ScaleFactor)
    (data_objects : list (string * Dataset)) : option (list (string * Dataset)) :=
  match scale_factors with
  | [] => Some data_objects
  | scale_factor :: scale_factors' =>
      downscaled ← downscale image current_input chunks scale_factor;
      build_levels image current_input chunks (S factor_index) scale_factors'
        (dict_set ("multiscales/" +:+ pretty (S factor_index))
                  (to_dataset (da_name image) downscaled) data_objects)
  end.

Definition to_multiscale (image : DataArray) (scale_factors : list ScaleFactor)
    (method : option Method) (chunks : option ChunkSpec)
  : option MultiscaleSpatialImage :=
  let chunks := match chunks with
                | None => default_chunks image
                | Some chunks => chunks
                end in
  rechunked ← chunk chunks image;
  let data_objects :=
    [("multiscales/0", to_dataset (da_name image) rechunked)] in
  let current_input := image in
  data_objects ← build_levels image current_input chunks 0 scale_factors data_objects;
  from_dict "multiscales" data_objects.

(** ** The cumulative pyramid, as the specification words it

    "The running current input is the array itself, updated after each step
    to the newly aggregated array before the next transition."  This is the
    reference [to_multiscale] is compared with; it is not taken from the
    source. *)

Fixpoint cumulative_levels (image current_input : DataArray) (chunks : ChunkSpec)
    (scale_factors : list ScaleFactor) : option (list DataArray) :=
  match scale_factors with
  | [] => Some []
  | scale_factor :: scale_factors' =>
      aggregated ← aggregate image current_input scale_factor;
      rechunked ← chunk chunks aggregated;
      levels ← cumulative_levels image aggregated chunks scale_factors';
      Some (rechunked :: levels)
  end.

(** ** [MultiscaleSpatialImage.to_zarr] *)

(** The [scale_transform] entry of one dimension with coordinate values [c]. *)
Definition scale_entry (c : list num) : num :=
  if bool_decide (1 < length c)
  then float (sub (nth 1 c zero) (nth 0 c zero))
  else one.

(** The [translate_transform] entry of one dimension. *)
Definition translate_entry (c : list num) : num :=
  if bool_decide (0 < length c)
  then float (nth 0 c zero)
  else zero.

(** The loop over [image.dims] of one level's dataset. *)
Definition scale_transform (image : Dataset) : list num :=
  (λ dim, scale_entry (co_values (ds_coords image dim))) <$> ds_dims image.

Definition translate_transform (image : Dataset) : list num :=
  (λ dim, translate_entry (co_values (ds_coords image dim))) <$> ds_dims image.

(** The [datasets] entry of one child for the variable [name]. *)
Definition ngff_dataset (name : string) (child : TreeNode) : json :=
  let image := node_ds child in
  JDict [("path", JStr (node_name child +:+ "/" +:+ name));
         ("coordinateTransformations",
          JList [JDict [("type", JStr "scale");
                        ("scale", JList (JNum <$> scale_transform image))];
                 JDict [("type", JStr "translation");
                        ("translation", JList (JNum <$> translate_transform image))]])].

(** The [axes] entry of one dimension of the first child's dataset. *)
Definition ngff_axis (image : Dataset) (axis : string) : json :=
  let entry :=
    if decide (axis = "t") then [("name", JStr "t"); ("type", JStr "time")]
    else if decide (axis = "c") then [("name", JStr "c"); ("type", JStr "channel")]
    else [("name", JStr axis); ("type", JStr "space")] in
  match co_attrs (ds_coords image axis) !! "units" with
  | Some units => JDict (dict_set "unit" units entry)
  | None => JDict entry
  end.

(** The record of one variable [name]. *)
Definition ngff_multiscale (children : list TreeNode) (first : TreeNode)
    (name : string) : json :=
  let ngff_datasets := ngff_dataset name <$> children in
  let image := node_ds first in
  let axes := ngff_axis image <$> ds_dims image in
  JDict [("version", JStr "0.4");
         ("name", JStr name);
         ("axes", JList axes);
         ("datasets", JList ngff_datasets)].

(** The document assigned to the root's attrs; [None] when there is no
    first child ([self.children[0]] raises). *)
Definition ngff_metadata (self : MultiscaleSpatialImage)
  : option (list (string * json)) :=
  first ← head (ms_children self);
  let multiscales :=
    ngff_multiscale (ms_children self) first <$> (ds_data_vars (node_ds first)).*1 in
  Some [("multiscales", JList multiscales)].

(** [self.ds.attrs = ngff_metadata]. *)
Definition set_root_attrs (self : MultiscaleSpatialImage)
    (attrs : list (string * json)) : MultiscaleSpatialImage :=
  {| ms_name := ms_name self;
     ms_ds := {| ds_data_vars := ds_data_vars (ms_ds self);
                 ds_axes := ds_axes (ms_ds self);
                 ds_attrs := attrs |};
     ms_children := ms_children self |}.

Section Persist.
Context {Store KwArg E : Type}.

(** The writer of the tree library, [DataTree.to_zarr(self, store,
    mode=..., encoding=..., **kwargs)].  An argument the call leaves out is
    [None] here and takes the writer's own default there.  The writer
    returns [None] when it succeeds and [Some e] when it raises [e]. *)
Variable super_to_zarr :
  MultiscaleSpatialImage → Store → option string → option json →
  list (string * KwArg) → option E.

(** [to_zarr(self, store, mode, encoding, **kwargs)]: the container after
    the call, and how the call ended. *)
Definition to_zarr (self : MultiscaleSpatialImage) (store : Store)
    (mode : string) (encoding : option json) (kwargs : list (string * KwArg))
  : MultiscaleSpatialImage * Outcome E :=
  match ngff_metadata self with
  | None => (self, Raised IndexError)
  | Some ngff_metadata =>
      let self := set_root_attrs self ngff_metadata in
      match super_to_zarr self store None None kwargs with
      | None => (self, Returned)
      | Some e => (self, Raised (StoreError e))
      end
  end.
End Persist.

(** ** Vocabulary of the statements *)

(** The path of level [j] in [data_objects]. *)
Definition level_path (j : nat) : string := "multiscales/" +:+ pretty j.

(** The entry of [data_objects] for the [j]-th level after level [first]. *)
Definition level_entry (name : string) (first : nat) (j : nat)
    (downscaled : DataArray) : string * Dataset :=
  (level_path (first + j), to_dataset name downscaled).

(** The child of level [j] holding [level]. *)
Definition level_node (name : string) (j : nat) (level : DataArray) : TreeNode :=
  {| node_name := pretty j; node_ds := to_dataset name level |}.

(** The chunking [to_multiscale] works with. *)
Definition chunks_used (image : DataArray) (chunks : option ChunkSpec) : ChunkSpec :=
  match chunks with
  | None => default_chunks image
  | Some chunks => chunks
  end.

(** The windows of a scale factor are usable on [image]: each names one of
    its dimensions, is positive and is below 2^63. *)
Definition factor_ok (image : DataArray) (scale_factor : ScaleFactor) : Prop :=
  map_Forall (λ d w, d ∈ dims image ∧ (0 < w < 2 ^ 63)%Z)
             (resolve_dim image scale_factor).

(** The factor that a scale factor gives the dimension labeled [label]: an
    integer applies to the labels x, y and z, a mapping to the labels it
    names. *)
Definition factor_on (scale_factor : ScaleFactor) (label : string) : option Z :=
  match scale_factor with
  | SFInt f =>
      if decide (label = "x" ∨ label = "y" ∨ label = "z") then Some f else None
  | SFDict m => m !! label
  end.


(** [a] holds what [b] holds, up to chunking. *)
Definition same_values (a b : DataArray) : Prop :=
  da_name a = da_name b ∧ da_axes a = da_axes b ∧ da_data a = da_data b.

(** The [type] that [to_zarr] gives an axis label. *)
Definition axis_kind (label : string) : string :=
  if decide (label = "t") then "time"
  else if decide (label = "c") then "channel"
  else "space".

(** The [axes] record of an axis, read off the axis itself. *)
Definition axis_record (a : Axis) : json :=
  JDict ([("name", JStr (ax_label a)); ("type", JStr (axis_kind (ax_label a)))]
           ++ match co_attrs (ax_coord a) !! "units" with
              | Some units => [("unit", units)]
              | None => []
              end).

(** The default chunk of the dimension [d] of [image]. *)
Definition default_chunk (image : DataArray) (d : string) : ChunkEntry :=
  if decide (d = "t") then CInt 1
  else if bool_decide ("z" ∈ dims image) then CInt 64
  else CInt 256.

(** The child holds the array [level] in its dataset. *)
Definition level_of (name : string) (child : TreeNode) (level : DataArray) : Prop :=
  node_ds child = to_dataset name level.

(** The document that [to_zarr] assembles for a container whose first child
    is [first]. *)
Definition document_of (self : MultiscaleSpatialImage) (first : TreeNode)
  : list (string * json) :=
  [("multiscales",
    JList (ngff_multiscale (ms_children self) first
             <$> (ds_data_vars (node_ds first)).*1))].

End Model.

Arguments json : clear implicits.
Arguments Coordinate : clear implicits.
Arguments Axis : clear implicits.
Arguments DataArray : clear implicits.
Arguments Dataset : clear implicits.
Arguments TreeNode : clear implicits.
Arguments MultiscaleSpatialImage : clear implicits.

Global Instance factor_ok_dec {num : Type} (image : DataArray num)
    (scale_factor : ScaleFactor) : Decision (factor_ok image scale_factor).
Proof. unfold factor_ok. apply _. Defined.

(** ** Sample arrays, in exact arithmetic *)

Global Instance exact : Arithmetic Q := {|
  mean := λ l, Qdiv (foldr Qplus (0 # 1)%Q l) (inject_Z (Z.of_nat (length l)));
  sub := Qminus;
  float := λ q, q;
  one := (1 # 1)%Q;
  zero := (0 # 1)%Q
|}.

Definition plain (values : list Q) : Coordinate Q :=
  {| co_values := values; co_attrs := ∅ |}.

Definition ramp (n : nat) : list Q := (λ i, inject_Z (Z.of_nat i)) <$> seq 0 n.

Definition line (n : nat) : DataArray Q :=
  {| da_name := "image";
     da_axes := [{| ax_label := "x"; ax_coord := plain (ramp n) |}];
     da_coord_names := ["x"];
     da_data := ramp n;
     da_chunks := None |}.

Definition grid (ny nx : nat) : DataArray Q :=
  {| da_name := "image";
     da_axes := [{| ax_label := "y"; ax_coord := plain (ramp ny) |};
                 {| ax_label := "x"; ax_coord := plain (ramp nx) |}];
     da_coord_names := ["y"; "x"];
     da_data := ramp (ny * nx);
     da_chunks := None |}.


Definition level_arrays (ms : MultiscaleSpatialImage Q)
  : list (string * list nat * list Q) :=
  (λ child,
     match ds_data_vars (node_ds child) with
     | (_, a) :: _ => (node_name child, shape a, Qred <$> da_data a)
     | [] => (node_name child, [], [])
     end) <$> ms_children ms.

Definition level_summary (levels : list (DataArray Q)) : list (list nat * list Q) :=
  (λ level, (shape level, Qred <$> da_data level)) <$> levels.

Definition spectra : DataArray Q :=
  {| da_name := "image";
     da_axes := [{| ax_label := "t"; ax_coord := plain (ramp 2) |};
                 {| ax_label := "c"; ax_coord := plain (ramp 3) |}];
     da_coord_names := ["t"; "c"];
     da_data := ramp 6;
     da_chunks := None |}.

Definition movie : DataArray Q :=
  {| da_name := "image";
     da_axes := [{| ax_label := "t"; ax_coord := plain (ramp 2) |};
                 {| ax_label := "y"; ax_coord := plain (ramp 4) |};
                 {| ax_label := "x"; ax_coord := plain (ramp 6) |}];
     da_coord_names := ["t"; "y"; "x"];
     da_data := ramp 48;
     da_chunks := None |}.

(** A time series of planes whose coordinates carry units. *)
Definition timelapse : DataArray Q :=
  {| da_name := "cells";
     da_axes :=
       [{| ax_label := "t";
           ax_coord := {| co_values := ramp 3;
                          co_attrs := {[ "units" := JStr "second" ]} |} |};
        {| ax_label := "c"; ax_coord := plain (ramp 2) |};
        {| ax_label := "y";
           ax_coord := {| co_values := ramp 4;
                          co_attrs := {[ "units" := JStr "micrometer" ]} |} |};
        {| ax_label := "x";
           ax_coord := {| co_values := ramp 4;
                          co_attrs := {[ "units" := JStr "micrometer" ]} |} |}];
     da_coord_names := ["t"; "c"; "y"; "x"];
     da_data := ramp 96;
     da_chunks := None |}.


(** A writer that raises, reporting the [mode] and [encoding] it was given. *)
Definition reporting_writer (self : MultiscaleSpatialImage Q) (store : unit)
    (mode : option string) (encoding : option (json Q))
    (kwargs : list (string * unit))
  : option (option string * option (json Q)) :=
  Some (mode, encoding).

(** A writer that succeeds. *)
Definition accepting_writer (self : MultiscaleSpatialImage Q) (store : unit)
    (mode : option string) (encoding : option (json Q))
    (kwargs : list (string * unit))
  : option (option string * option (json Q)) :=
  None.

(** A container whose root carries attrs of its own. *)
Definition annotated (ms : MultiscaleSpatialImage Q) : MultiscaleSpatialImage Q :=
  set_root_attrs ms [("note", JStr "earlier")].

(** * Properties *)

Ltac by_compute := apply (bool_decide_unpack _); vm_compute; exact I.

(** ** Lists, dictionaries and paths *)

Lemma length_pieces {A : Type} (n k : nat) (l : list A) :
  length (pieces n k l) = n.
Proof.
  revert l. induction n as [|n IH]; intros l; simpl; [done|].
  by rewrite IH.
Qed.



Lemma dict_set_fresh {V : Type} (k : string) (v : V) (d : list (string * V)) :
  k ∉ d.*1 → dict_set k v d = d ++ [(k, v)].
Proof.
  induction d as [|[k' v'] d IH]; simpl; intros Hk; [done|].
  apply not_elem_of_cons in Hk as [Hne Hk].
  rewrite decide_False by done. by rewrite IH.
Qed.

Lemma strip_prefix_app (p s : string) : strip_prefix p (p +:+ s) = Some s.
Proof.
  induction p as [|c p IH]; simpl; [done|].
  by rewrite decide_True.
Qed.

Lemma string_app_inj_l (p s t : string) : p +:+ s = p +:+ t → s = t.
Proof.
  intros Heq. pose proof (strip_prefix_app p s) as Hs.
  rewrite Heq, strip_prefix_app in Hs. congruence.
Qed.

Lemma level_path_inj (i j : nat) : level_path i = level_path j → i = j.
Proof.
  unfold level_path. intros Heq.
  apply string_app_inj_l in Heq. by apply (inj pretty) in Heq.
Qed.

Lemma level_path_fresh (i : nat) :
  level_path (S i) ∉ level_path <$> seq 0 (S i).
Proof.
  intros Hin. apply list_elem_of_fmap in Hin as (j & Heq & Hj).
  apply level_path_inj in Heq. apply elem_of_seq in Hj. lia.
Qed.

Lemma mapM_imap_Some {A B C : Type} (f : B → option C) (g : nat → A → B)
    (h : nat → A → C) (l : list A) :
  (∀ j x, f (g j x) = Some (h j x)) → mapM f (imap g l) = Some (imap h l).
Proof.
  revert g h. induction l as [|x l IH]; intros g h Hfg; simpl; [done|].
  rewrite Hfg. simpl.
  rewrite (IH (g ∘ S) (h ∘ S)); [done|]. intros j y. apply Hfg.
Qed.

(** ** Row-major indexing *)








Section Properties.
Context {num : Type} `{Arithmetic num}.

Implicit Types (image current_input level : DataArray num).
Implicit Types (a : Axis num) (ms self : MultiscaleSpatialImage num).
Implicit Types (child first : TreeNode num).

Lemma length_coarsen_values (side : Side) (w : nat) (l : list num) :
  length (coarsen_values side w l) = (length l / w)%nat.
Proof. unfold coarsen_values. by rewrite length_fmap, length_pieces. Qed.

Lemma pieces_one {A : Type} (l : list A) :
  pieces (length l) 1 l = (λ x, [x]) <$> l.
Proof. induction l as [|x l IH]; [done|]. simpl. by rewrite drop_0, IH. Qed.

Lemma coarsen_values_one (side : Side) (l : list num) :
  coarsen_values side 1 l = (λ x, mean [x]) <$> l.
Proof.
  unfold coarsen_values. rewrite Nat.div_1_r.
  assert (trim side 1 l = l) as ->.
  { unfold trim. rewrite Nat.div_1_r, Nat.mul_1_l.
    destruct side; [apply firstn_all|]. by rewrite Nat.sub_diag. }
  by rewrite pieces_one, <- list_fmap_compose.
Qed.

(** ** What the loop computes *)

Lemma build_levels_eq image current_input (chunks : ChunkSpec)
    (scale_factors : list ScaleFactor) (factor_index : nat)
    (data_objects : list (string * Dataset num)) :
  data_objects.*1 = level_path <$> seq 0 (S factor_index) →
  build_levels image current_input chunks factor_index scale_factors data_objects =
    (levels ← mapM (downscale image current_input chunks) scale_factors;
     Some (data_objects
             ++ imap (level_entry (da_name image) (S factor_index)) levels)).
Proof.
  revert factor_index data_objects.
  induction scale_factors as [|sf sfs IH]; intros i acc Hacc; simpl.
  { by rewrite app_nil_r. }
  destruct (downscale image current_input chunks sf) as [d|]; simpl; [|done].
  change ("multiscales/" +:+ pretty (S i)) with (level_path (S i)).
  rewrite dict_set_fresh by (rewrite Hacc; apply level_path_fresh).
  rewrite IH.
  - destruct (mapM _ sfs) as [ds|]; simpl; [|done].
    rewrite <- app_assoc. simpl. do 3 f_equal.
    + unfold level_entry. by rewrite Nat.add_0_r.
    + apply imap_ext. intros j x _. unfold level_entry. simpl.
      do 2 f_equal. lia.
  - by rewrite fmap_app, Hacc, (seq_S (S i) 0), fmap_app.
Qed.

Lemma from_dict_levels (name : string) (levels : list (DataArray num)) :
  from_dict "multiscales"
    (imap (λ j level, (level_path j, to_dataset name level)) levels) =
  Some {| ms_name := "multiscales";
          ms_ds := empty_dataset;
          ms_children := imap (level_node name) levels |}.
Proof.
  unfold from_dict.
  rewrite (mapM_imap_Some _ _ (level_node name)); [done|].
  intros j x. unfold level_path.
  change ("multiscales" +:+ "/") with "multiscales/".
  by rewrite strip_prefix_app.
Qed.

(** [to_multiscale] in closed form: level 0 is the re-chunked input and every
    further level is one pass of the loop body on the input image. *)
Lemma to_multiscale_eq image (scale_factors : list ScaleFactor)
    (method : option Method) (chunks : option ChunkSpec) :
  to_multiscale image scale_factors method chunks =
    (rechunked ← chunk (chunks_used image chunks) image;
     levels ← mapM (downscale image image (chunks_used image chunks)) scale_factors;
     Some {| ms_name := "multiscales";
             ms_ds := empty_dataset;
             ms_children :=
               imap (level_node (da_name image)) (rechunked :: levels) |}).
Proof.
  unfold to_multiscale. fold (chunks_used image chunks).
  destruct (chunk (chunks_used image chunks) image) as [rechunked|]; [|done].
  cbn [mbind option_bind].
  rewrite build_levels_eq by done.
  destruct (mapM _ scale_factors) as [levels|]; [|done].
  cbn [mbind option_bind].
  etrans; [|apply (from_dict_levels (da_name image) (rechunked :: levels))].
  done.
Qed.

(** The children of a returned container, level by level. *)
Lemma to_multiscale_children image (scale_factors : list ScaleFactor)
    (method : option Method) (chunks : option ChunkSpec) ms :
  to_multiscale image scale_factors method chunks = Some ms →
  ∃ rechunked levels,
    chunk (chunks_used image chunks) image = Some rechunked ∧
    mapM (downscale image image (chunks_used image chunks)) scale_factors
      = Some levels ∧
    ms = {| ms_name := "multiscales";
            ms_ds := empty_dataset;
            ms_children :=
              imap (level_node (da_name image)) (rechunked :: levels) |}.
Proof.
  intros Hms. rewrite to_multiscale_eq in Hms.
  destruct (chunk _ image) as [rechunked|]; [|done].
  cbn [mbind option_bind] in Hms.
  destruct (mapM _ scale_factors) as [levels|]; simplify_eq/=. by eexists _, _.
Qed.

Lemma chunk_Some_inv (chunks : ChunkSpec) image level :
  chunk chunks image = Some level →
  level = {| da_name := da_name image;
             da_axes := da_axes image;
             da_coord_names := da_coord_names image;
             da_data := da_data image;
             da_chunks := Some chunks |}.
Proof. unfold chunk. destruct (chunk_ok chunks image); naive_solver. Qed.

(** ** The aggregation step *)

Lemma spatial_dims_elem (d : string) :
  d ∈ _spatial_dims ↔ d = "x" ∨ d = "y" ∨ d = "z".
Proof.
  unfold _spatial_dims. rewrite !elem_of_union, !elem_of_singleton. tauto.
Qed.

Lemma resolve_dim_factor_on image (scale_factor : ScaleFactor) (d : string) :
  d ∈ dims image → resolve_dim image scale_factor !! d = factor_on scale_factor d.
Proof.
  intros Hd. destruct scale_factor as [f|m]; [|done].
  unfold factor_on. cbn [resolve_dim]. case_decide as Hsp.
  - apply lookup_gset_to_gmap_Some. split; [|done].
    rewrite elem_of_intersection, spatial_dims_elem, elem_of_list_to_set. done.
  - apply lookup_gset_to_gmap_None.
    rewrite elem_of_intersection, spatial_dims_elem. tauto.
Qed.

Lemma axis_label_in_dims image (i : nat) a :
  da_axes image !! i = Some a → ax_label a ∈ dims image.
Proof.
  intros Ha. unfold dims. apply list_elem_of_fmap.
  exists a. split; [done|]. by eapply list_elem_of_lookup_2.
Qed.


Lemma coarsen_axis_label (side : Side) (dim : gmap string Z) a :
  ax_label (coarsen_axis side dim a) = ax_label a.
Proof. unfold coarsen_axis. by destruct (dim !! ax_label a). Qed.

Lemma coarsen_axis_None (side : Side) (dim : gmap string Z) a :
  dim !! ax_label a = None → coarsen_axis side dim a = a.
Proof. unfold coarsen_axis. by intros ->. Qed.

Lemma coarsen_axis_values (side : Side) (dim : gmap string Z) a (w : Z) :
  dim !! ax_label a = Some w →
  co_values (ax_coord (coarsen_axis side dim a)) =
    coarsen_values side (Z.to_nat w) (co_values (ax_coord a)).
Proof. unfold coarsen_axis. by intros ->. Qed.



(** What a completed aggregation returns. *)
Lemma aggregate_Some_inv image current_input (scale_factor : ScaleFactor) out :
  aggregate image current_input scale_factor = Some out →
  map_Forall (λ d w, d ∈ dims current_input ∧ (0 < w < 2 ^ 63)%Z)
             (resolve_dim image scale_factor) ∧
  da_axes out
    = coarsen_axis SideRight (resolve_dim image scale_factor)
        <$> da_axes current_input ∧
  da_name out = da_name current_input ∧
  da_coord_names out = da_coord_names current_input ∧
  da_chunks out = da_chunks current_input ∧
  (resolve_dim image scale_factor = ∅ → out = current_input) ∧
  (resolve_dim image scale_factor ≠ ∅ →
   da_data out =
     coarsen_cells SideRight (shape current_input)
       (windows (resolve_dim image scale_factor) (da_axes current_input))
       (da_data current_input)).
Proof.
  unfold aggregate, coarsen_trim_mean. intros Hout.
  case_decide as Hok; [|done]. split; [done|].
  case_decide as Hempty; simplify_eq/=.
  - rewrite Hempty. repeat split; try done.
    rewrite (list_fmap_ext _ id (da_axes out)), list_fmap_id; [done|].
    intros i a _. by apply coarsen_axis_None.
  - repeat split; done.
Qed.






(** ** Which axes a transition reduces *)



(** ** Extents after a transition *)


(** ** The levels of a returned container *)

Lemma downscale_Some_inv image current_input (chunks : ChunkSpec)
    (scale_factor : ScaleFactor) level :
  downscale image current_input chunks scale_factor = Some level →
  ∃ out, aggregate image current_input scale_factor = Some out ∧
         chunk chunks out = Some level ∧
         da_name level = da_name out ∧
         da_axes level = da_axes out ∧
         da_coord_names level = da_coord_names out ∧
         da_data level = da_data out ∧
         da_chunks level = Some chunks.
Proof.
  unfold downscale. intros Hlevel.
  destruct (aggregate image current_input scale_factor) as [out|]; [|done].
  cbn [mbind option_bind] in Hlevel. exists out.
  split; [done|]. split; [done|].
  by apply chunk_Some_inv in Hlevel as ->.
Qed.

(** A property of the re-chunked input and of every pass of the loop body
    holds of every level of the container. *)
Lemma to_multiscale_levels_Forall (P : DataArray num → Prop) image
    (scale_factors : list ScaleFactor) (method : option Method)
    (chunks : option ChunkSpec) ms :
  (∀ rechunked,
      chunk (chunks_used image chunks) image = Some rechunked → P rechunked) →
  (∀ scale_factor level,
      scale_factor ∈ scale_factors →
      downscale image image (chunks_used image chunks) scale_factor = Some level →
      P level) →
  to_multiscale image scale_factors method chunks = Some ms →
  Forall (λ child, ∃ level, level_of (da_name image) child level ∧ P level)
         (ms_children ms).
Proof.
  intros H0 Hstep Hms.
  apply to_multiscale_children in Hms as (rechunked & levels & Hre & Hlevels & ->).
  cbn [ms_children].
  apply mapM_Some in Hlevels.
  assert (HP : Forall P (rechunked :: levels)).
  { constructor; [by apply H0|].
    apply Forall_forall. intros level Hlevel.
    apply list_elem_of_lookup in Hlevel as [j Hj].
    destruct (Forall2_lookup_r _ _ _ _ _ Hlevels Hj) as (sf & Hsf & Hd).
    eapply Hstep; [|exact Hd]. by eapply list_elem_of_lookup_2. }
  apply Forall_forall. intros child Hchild.
  apply list_elem_of_lookup in Hchild as [j Hj].
  rewrite list_lookup_imap in Hj.
  destruct ((rechunked :: levels) !! j) as [level|] eqn:Hlevel; simplify_eq/=.
  exists level. split; [done|].
  eapply Forall_lookup_1; [exact HP|exact Hlevel].
Qed.

(** The factors of a call that returned were all usable on the image. *)
Lemma to_multiscale_factors_ok image (scale_factors : list ScaleFactor)
    (method : option Method) (chunks : option ChunkSpec) ms (k : nat)
    (scale_factor : ScaleFactor) :
  to_multiscale image scale_factors method chunks = Some ms →
  scale_factors !! k = Some scale_factor →
  factor_ok image scale_factor.
Proof.
  intros Hms Hk.
  apply to_multiscale_children in Hms as (rechunked & levels & _ & Hlevels & _).
  apply mapM_Some in Hlevels.
  destruct (Forall2_lookup_l _ _ _ _ _ Hlevels Hk) as (level & _ & Hd).
  apply downscale_Some_inv in Hd as (out & Hout & _).
  by apply aggregate_Some_inv in Hout as [Hok _].
Qed.

Lemma resolve_dim_int_empty image (f : Z) :
  "x" ∉ dims image → "y" ∉ dims image → "z" ∉ dims image →
  resolve_dim image (SFInt f) = ∅.
Proof.
  intros Hx Hy Hz. apply map_empty. intros d.
  apply lookup_gset_to_gmap_None.
  rewrite elem_of_intersection, spatial_dims_elem, elem_of_list_to_set.
  intros [[-> | [-> | ->]] ?]; done.
Qed.

Lemma length_to_multiscale_children image (scale_factors : list ScaleFactor)
    (method : option Method) (chunks : option ChunkSpec) ms :
  to_multiscale image scale_factors method chunks = Some ms →
  length (ms_children ms) = S (length scale_factors).
Proof.
  intros Hms.
  apply to_multiscale_children in Hms as (rechunked & levels & _ & Hlevels & ->).
  apply length_mapM in Hlevels.
  cbn [ms_children]. rewrite length_imap. simpl. by rewrite Hlevels.
Qed.

(** C4. The container that [to_multiscale] returns for [N] scale factors
    has exactly [N + 1] children: level 0 and one level per factor. *)
Theorem to_multiscale_level_count image (scale_factors : list ScaleFactor)
    (method : option Method) (chunks : option ChunkSpec) ms :
  to_multiscale image scale_factors method chunks = Some ms →
  length (ms_children ms) = S (length scale_factors).
Proof. apply length_to_multiscale_children. Qed.


(** C9. When the image has no dimension labeled x, y or z, every level of
    the container returned for integer scale factors, whatever their values,
    holds the name, the axes and the data values of the input. *)
Theorem to_multiscale_without_spatial_dims image (factors : list Z)
    (method : option Method) (chunks : option ChunkSpec) ms :
  "x" ∉ dims image → "y" ∉ dims image → "z" ∉ dims image →
  to_multiscale image (SFInt <$> factors) method chunks = Some ms →
  length (ms_children ms) = S (length factors) ∧
  Forall (λ child, ∃ arr,
            ds_data_vars (node_ds child) = [(da_name image, arr)] ∧
            same_values arr image ∧
            da_data arr = da_data image)
         (ms_children ms).
Proof.
  intros Hx Hy Hz Hms. split.
  { rewrite (length_to_multiscale_children _ _ _ _ _ Hms). by rewrite length_fmap. }
  eapply Forall_impl;
    [apply (to_multiscale_levels_Forall (λ level, same_values level image)
              image (SFInt <$> factors) method chunks ms); [| |done]|].
  - intros rechunked Hre. by apply chunk_Some_inv in Hre as ->.
  - intros sf level Hsf Hlevel.
    apply list_elem_of_fmap in Hsf as (f & -> & _).
    apply downscale_Some_inv in Hlevel as (out & Hout & _ & Hn & Ha & _ & Hd & _).
    apply aggregate_Some_inv in Hout as (_ & _ & _ & _ & _ & Hempty & _).
    rewrite (Hempty (resolve_dim_int_empty image f Hx Hy Hz)) in *.
    by repeat split.
  - intros child (level & Hchild & Hsame). exists level.
    unfold level_of in Hchild. rewrite Hchild.
    split; [done|]. split; [done|]. by destruct Hsame as (_ & _ & ?).
Qed.

(** X1. Every level of the pyramid holds one variable, named after the
    input image, chunked with the one chunk specification of the call: the
    [chunks] argument when given, the default of the input image when not. *)
Theorem to_multiscale_levels_chunked image
    (scale_factors : list ScaleFactor) (method : option Method)
    (chunks : option ChunkSpec) ms :
  to_multiscale image scale_factors method chunks = Some ms →
  Forall (λ child, ∃ level,
            ds_data_vars (node_ds child) = [(da_name image, level)] ∧
            da_name level = da_name image ∧
            da_chunks level =
              Some (match chunks with
                    | Some given => given
                    | None => default_chunks image
                    end))
         (ms_children ms).
Proof.
  intros Hms.
  eapply Forall_impl;
    [apply (to_multiscale_levels_Forall
              (λ level, da_name level = da_name image ∧
                        da_chunks level = Some (chunks_used image chunks))
              image scale_factors method chunks ms); [| |done]|].
  - intros rechunked Hre. by apply chunk_Some_inv in Hre as ->.
  - intros sf level _ Hlevel.
    apply downscale_Some_inv in Hlevel as (out & Hout & _ & Hn & _ & _ & _ & Hc).
    apply aggregate_Some_inv in Hout as (_ & _ & Hname & _).
    split; [congruence|done].
  - intros child (level & Hchild & Hname & Hchunks). exists level.
    unfold level_of in Hchild. rewrite Hchild. by destruct chunks.
Qed.

(** X3. No level is larger than the input along any dimension: axis by axis
    of the array that a level holds, the label is that of the input and the
    extent is at most the extent of the input. *)
Theorem to_multiscale_levels_not_larger image
    (scale_factors : list ScaleFactor) (method : option Method)
    (chunks : option ChunkSpec) ms :
  to_multiscale image scale_factors method chunks = Some ms →
  Forall (λ child, ∃ level,
            ds_data_vars (node_ds child) = [(da_name image, level)] ∧
            Forall2 (λ a' a, ax_label a' = ax_label a ∧ extent a' ≤ extent a)
                    (da_axes level) (da_axes image))
         (ms_children ms).
Proof.
  intros Hms.
  eapply Forall_impl;
    [apply (to_multiscale_levels_Forall
              (λ level, Forall2 (λ a' a, ax_label a' = ax_label a ∧
                                          extent a' ≤ extent a)
                                (da_axes level) (da_axes image))
              image scale_factors method chunks ms); [| |done]|].
  - intros rechunked Hre. apply chunk_Some_inv in Hre as ->. simpl.
    apply Forall_Forall2_diag, Forall_forall. done.
  - intros sf level _ Hlevel.
    apply downscale_Some_inv in Hlevel as (out & Hout & _ & _ & -> & _).
    apply aggregate_Some_inv in Hout as (_ & -> & _).
    apply Forall2_fmap_l, Forall_Forall2_diag, Forall_forall. intros a _.
    split; [apply coarsen_axis_label|].
    unfold coarsen_axis. destruct (_ !! ax_label a) as [w|]; [|done].
    unfold extent. cbn [ax_coord co_values]. rewrite length_coarsen_values.
    destruct (Z.to_nat w) as [|w'] eqn:Hw; [simpl; lia|].
    apply Nat.Div0.div_le_upper_bound. nia.
  - intros child (level & Hchild & Haxes). exists level.
    unfold level_of in Hchild. by rewrite Hchild.
Qed.

(** X4. The children of the container are named by the decimal level
    indices "0", "1", ..., "N" in order, and no two children share a name. *)
Theorem to_multiscale_child_names image
    (scale_factors : list ScaleFactor) (method : option Method)
    (chunks : option ChunkSpec) ms :
  to_multiscale image scale_factors method chunks = Some ms →
  ms_name ms = "multiscales" ∧
  node_name <$> ms_children ms = pretty <$> seq 0 (S (length scale_factors)) ∧
  NoDup (node_name <$> ms_children ms).
Proof.
  intros Hms.
  apply to_multiscale_children in Hms as (rechunked & levels & _ & Hlevels & ->).
  apply length_mapM in Hlevels. rewrite Hlevels.
  assert (Hnames : ∀ (l : list (DataArray num)) (start : nat),
             node_name <$> imap (λ j, level_node (da_name image) (start + j)) l
             = pretty <$> seq start (length l)).
  { induction l as [|x l IH]; intros start; [done|].
    simpl. rewrite Nat.add_0_r. f_equal.
    etrans; [|apply (IH (S start))]. f_equal.
    apply imap_ext. intros j y _. simpl. f_equal. lia. }
  split; [done|]. cbn [ms_children].
  pose proof (Hnames (rechunked :: levels) 0) as H0.
  cbn [length] in H0.
  split; [exact H0|].
  rewrite (imap_ext _ (λ j, level_node (da_name image) (0 + j))
             (rechunked :: levels)) by done.
  rewrite H0.
  apply NoDup_fmap_2; [apply _|apply NoDup_seq].
Qed.

(** X6. A mapping that names a dimension the image does not have makes the
    whole call fail, wherever in the sequence it stands: no container is
    returned. *)
Theorem to_multiscale_unknown_dimension image
    (scale_factors : list ScaleFactor) (method : option Method)
    (chunks : option ChunkSpec) (k : nat) (m : gmap string Z) (d : string) :
  scale_factors !! k = Some (SFDict m) →
  is_Some (m !! d) →
  d ∉ dims image →
  to_multiscale image scale_factors method chunks = None.
Proof.
  intros Hk [w Hw] Hd.
  destruct (to_multiscale image scale_factors method chunks) as [ms|] eqn:Hms;
    [exfalso|done].
  pose proof (to_multiscale_factors_ok _ _ _ _ _ _ _ Hms Hk) as Hm.
  by destruct (Hm d w Hw).
Qed.

(** X7. A factor that is zero or negative for a dimension of the image makes
    the whole call fail: an integer factor when the image has a dimension
    labeled x, y or z, a mapping when it gives such a factor to a dimension. *)
Theorem to_multiscale_nonpositive_factor image
    (scale_factors : list ScaleFactor) (method : option Method)
    (chunks : option ChunkSpec) (k : nat) (scale_factor : ScaleFactor)
    (d : string) (w : Z) :
  scale_factors !! k = Some scale_factor →
  match scale_factor with
  | SFInt f => f = w ∧ d ∈ _spatial_dims ∧ d ∈ dims image
  | SFDict m => m !! d = Some w
  end →
  (w ≤ 0)%Z →
  to_multiscale image scale_factors method chunks = None.
Proof.
  intros Hk Hsf Hw.
  destruct (to_multiscale image scale_factors method chunks) as [ms|] eqn:Hms;
    [exfalso|done].
  pose proof (to_multiscale_factors_ok _ _ _ _ _ _ _ Hms Hk) as Hm.
  assert (Hlookup : resolve_dim image scale_factor !! d = Some w).
  { destruct scale_factor as [f|m]; [|done].
    destruct Hsf as (<- & Hsp & Hin).
    rewrite (resolve_dim_factor_on image (SFInt f) d Hin). cbn [factor_on].
    apply spatial_dims_elem in Hsp. by rewrite decide_True. }
  destruct (Hm d w Hlookup). lia.
Qed.

(** X16. Every level after the first is one pass of the loop body on the
    input image itself, whatever the levels before it. *)
Theorem to_multiscale_levels_from_input image
    (scale_factors : list ScaleFactor) (method : option Method)
    (chunks : option ChunkSpec) ms (k : nat) (scale_factor : ScaleFactor) :
  to_multiscale image scale_factors method chunks = Some ms →
  scale_factors !! k = Some scale_factor →
  ∃ level,
    downscale image image (chunks_used image chunks) scale_factor = Some level ∧
    ms_children ms !! S k = Some (level_node (da_name image) (S k) level).
Proof.
  intros Hms Hk.
  apply to_multiscale_children in Hms as (rechunked & levels & _ & Hlevels & ->).
  apply mapM_Some in Hlevels.
  destruct (Forall2_lookup_l _ _ _ _ _ Hlevels Hk) as (level & Hlevel & Hd).
  exists level. split; [done|].
  cbn [ms_children]. by rewrite list_lookup_imap, lookup_cons, Hlevel.
Qed.

(** X15. A factor of 1 for a dimension leaves that dimension with its
    label, extent and attrs, and replaces every coordinate value by the mean
    of that value alone, which is the value itself wherever the mean of a
    single value is that value. *)
Theorem aggregate_factor_one image current_input
    (scale_factor : ScaleFactor) (i : nat) a :
  dims current_input = dims image →
  factor_ok image scale_factor →
  da_axes current_input !! i = Some a →
  match scale_factor with
  | SFInt f => f = 1%Z ∧ ax_label a ∈ _spatial_dims
  | SFDict m => m !! ax_label a = Some 1%Z
  end →
  ∃ out a',
    aggregate image current_input scale_factor = Some out ∧
    da_axes out !! i = Some a' ∧
    ax_label a' = ax_label a ∧
    extent a' = extent a ∧
    co_attrs (ax_coord a') = co_attrs (ax_coord a) ∧
    co_values (ax_coord a') = (λ x, mean [x]) <$> co_values (ax_coord a) ∧
    ((∀ x : num, mean [x] = x) →
     co_values (ax_coord a') = co_values (ax_coord a)).
Proof.
  intros Hdims Hok Ha Hone.
  assert (Hin : ax_label a ∈ dims image).
  { rewrite <- Hdims. by eapply axis_label_in_dims. }
  assert (Hw : resolve_dim image scale_factor !! ax_label a = Some 1%Z).
  { rewrite (resolve_dim_factor_on image scale_factor _ Hin).
    destruct scale_factor as [f|m]; [|done].
    destruct Hone as [-> Hsp]. cbn [factor_on].
    apply spatial_dims_elem in Hsp. by rewrite decide_True. }
  destruct (aggregate image current_input scale_factor) as [out|] eqn:Hout.
  - destruct (aggregate_Some_inv _ _ _ _ Hout) as (_ & Haxes & _).
    exists out, (coarsen_axis SideRight (resolve_dim image scale_factor) a).
    split; [done|].
    split; [by rewrite Haxes, list_lookup_fmap, Ha|].
    assert (Hvalues :
              co_values (ax_coord (coarsen_axis SideRight
                                     (resolve_dim image scale_factor) a))
              = (λ x, mean [x]) <$> co_values (ax_coord a)).
    { rewrite (coarsen_axis_values _ _ _ _ Hw).
      change (Z.to_nat 1) with 1. apply coarsen_values_one. }
    split; [apply coarsen_axis_label|].
    split; [by unfold extent; rewrite Hvalues, length_fmap|].
    split; [by unfold coarsen_axis; rewrite Hw|].
    split; [done|].
    intros Hmean. rewrite Hvalues.
    rewrite (list_fmap_ext _ id (co_values (ax_coord a))), list_fmap_id; [done|].
    intros j x _. apply Hmean.
  - exfalso. unfold aggregate, coarsen_trim_mean in Hout.
    rewrite decide_True in Hout; [by case_decide|].
    unfold factor_ok in Hok. by rewrite Hdims.
Qed.

(** ** The default chunking *)

Lemma foldl_dict_set_fresh {V : Type} (g : string → V) (keys : list string)
    (acc : list (string * V)) :
  NoDup keys → (∀ k, k ∈ keys → k ∉ acc.*1) →
  foldl (λ acc d, dict_set d (g d) acc) acc keys = acc ++ ((λ d, (d, g d)) <$> keys).
Proof.
  revert acc. induction keys as [|k keys IH]; intros acc Hnodup Hfresh; simpl.
  { by rewrite app_nil_r. }
  apply NoDup_cons in Hnodup as [Hk Hnodup].
  rewrite dict_set_fresh by (apply Hfresh; left).
  rewrite IH; [by rewrite <- app_assoc|done|].
  intros k' Hk'. rewrite fmap_app, elem_of_app. simpl.
  rewrite list_elem_of_singleton. intros [Hin | ->]; [|done].
  by apply (Hfresh k'); [right|].
Qed.

Lemma dict_set_present {V : Type} (g : string → V) (k : string) (v : V)
    (keys : list string) :
  NoDup keys → k ∈ keys →
  dict_set k v ((λ d, (d, g d)) <$> keys) =
    (λ d, (d, if decide (d = k) then v else g d)) <$> keys.
Proof.
  induction keys as [|k0 keys IH]; intros Hnodup Hin; [by apply elem_of_nil in Hin|].
  apply NoDup_cons in Hnodup as [Hk0 Hnodup]. simpl.
  destruct (decide (k = k0)) as [->|Hne].
  - rewrite decide_True by done. f_equal.
    apply list_fmap_ext. intros i d Hd.
    rewrite decide_False; [done|]. intros ->.
    apply Hk0. by eapply list_elem_of_lookup_2.
  - rewrite (decide_False (P := k0 = k)) by done. f_equal.
    apply IH; [done|]. apply elem_of_cons in Hin as [?|?]; done.
Qed.

(** X5. With unique dimension labels, the default chunking has one entry
    per dimension of the image, in dimension order: 1 for "t", and for every
    other dimension 64 when the image has a "z" dimension and 256 when not. *)
Theorem default_chunks_entries image :
  NoDup (dims image) →
  default_chunks image =
    ChunkMapping ((λ d, (d, default_chunk image d)) <$> dims image).
Proof.
  intros Hnodup. unfold default_chunks, default_chunk.
  rewrite (foldl_dict_set_fresh
             (λ _, CInt (if bool_decide ("z" ∈ dims image) then 64 else 256)%Z)
             (dims image) [] Hnodup) by (intros k _; apply not_elem_of_nil).
  rewrite app_nil_l. f_equal.
  case_bool_decide as Ht.
  - rewrite dict_set_present by done.
    apply list_fmap_ext. intros i d _. f_equal.
    destruct (decide (d = "t")); [done|]. by destruct (bool_decide _).
  - apply list_fmap_ext. intros i d Hd. f_equal.
    rewrite decide_False; [by destruct (bool_decide _)|].
    intros ->. apply Ht. by eapply list_elem_of_lookup_2.
Qed.

(** ** The dimension order of a level's dataset *)

Lemma find_axis_by_label (axes : list (Axis num)) (i : nat) a :
  NoDup (ax_label <$> axes) → axes !! i = Some a →
  find (λ b, bool_decide (ax_label b = ax_label a)) axes = Some a.
Proof.
  revert i. induction axes as [|b axes IH]; intros i Hnodup Hi; [done|].
  rewrite fmap_cons in Hnodup. apply NoDup_cons in Hnodup as [Hb Hnodup].
  destruct i as [|i]; simpl in *.
  - simplify_eq. by rewrite bool_decide_eq_true_2.
  - rewrite bool_decide_eq_false_2; [by eapply IH|].
    intros Heq. apply Hb. rewrite Heq. apply list_elem_of_fmap.
    exists a. split; [done|]. by eapply list_elem_of_lookup_2.
Qed.

Lemma find_label_Some (axes : list (Axis num)) (d : string) a :
  find (λ b, bool_decide (ax_label b = d)) axes = Some a →
  ax_label a = d ∧ a ∈ axes.
Proof.
  induction axes as [|b axes IH]; [done|]. simpl.
  case_bool_decide as Hb.
  - intros [= ->]. split; [done|]. left.
  - intros Hfind. destruct (IH Hfind) as [? ?]. split; [done|]. by right.
Qed.

Lemma elem_of_dataset_order (names : list string) (axes : list (Axis num)) a :
  NoDup (ax_label <$> axes) →
  a ∈ dataset_order names axes ↔ a ∈ axes.
Proof.
  intros Hnodup. unfold dataset_order. rewrite elem_of_app. split.
  - intros [Hin | Hin].
    + apply list_elem_of_omap in Hin as (d & _ & Hfind).
      by apply find_label_Some in Hfind as [_ ?].
    + by apply list_elem_of_filter in Hin as [_ ?].
  - intros Ha. destruct (decide (ax_label a ∈ names)) as [Hin | Hout].
    + left. apply list_elem_of_omap. exists (ax_label a).
      split; [by apply (proj2 (elem_of_remove_dups names (ax_label a)))|].
      apply list_elem_of_lookup in Ha as [i Hi].
      by eapply find_axis_by_label.
    + right. by apply list_elem_of_filter.
Qed.

Lemma NoDup_labels_filter (P : Axis num → Prop) `{∀ a, Decision (P a)}
    (axes : list (Axis num)) :
  NoDup (ax_label <$> axes) → NoDup (ax_label <$> filter P axes).
Proof.
  induction axes as [|b axes IH]; [done|].
  rewrite fmap_cons. intros [Hb Hnodup]%NoDup_cons.
  rewrite filter_cons. destruct (decide (P b)); [|by apply IH].
  rewrite fmap_cons. apply NoDup_cons. split; [|by apply IH].
  intros (a & Heq & Ha)%list_elem_of_fmap.
  apply list_elem_of_filter in Ha as [_ Ha].
  apply Hb. rewrite Heq. apply list_elem_of_fmap. by exists a.
Qed.

Lemma NoDup_labels_omap_find (axes : list (Axis num)) (l : list string) :
  NoDup l →
  NoDup (ax_label <$> omap (λ d, find (λ a, bool_decide (ax_label a = d)) axes) l).
Proof.
  induction l as [|d l IH]; [constructor|].
  intros [Hd Hnodup]%NoDup_cons. simpl.
  destruct (find _ axes) as [a|] eqn:Hfind; [|by apply IH].
  rewrite fmap_cons. apply NoDup_cons. split; [|by apply IH].
  apply find_label_Some in Hfind as [Hlabel _].
  intros (a' & Heq & Ha')%list_elem_of_fmap.
  apply list_elem_of_omap in Ha' as (d' & Hd' & Hfind').
  apply find_label_Some in Hfind' as [Hlabel' _].
  apply Hd. congruence.
Qed.

(** The dataset of a level has every dimension of the array once. *)
Lemma NoDup_dataset_order (names : list string) (axes : list (Axis num)) :
  NoDup (ax_label <$> axes) →
  NoDup (ax_label <$> dataset_order names axes).
Proof.
  intros Hnodup. unfold dataset_order. rewrite fmap_app. apply NoDup_app.
  split; [apply NoDup_labels_omap_find, NoDup_remove_dups|].
  split; [|by apply NoDup_labels_filter].
  intros d (a & -> & Ha)%list_elem_of_fmap (a' & Heq & Ha')%list_elem_of_fmap.
  apply list_elem_of_omap in Ha as (d & Hd & Hfind).
  apply find_label_Some in Hfind as [Hlabel _].
  apply list_elem_of_filter in Ha' as [Hout _].
  apply Hout. rewrite <- Heq, Hlabel.
  by apply (proj1 (elem_of_remove_dups names d)).
Qed.

Lemma dataset_order_Permutation (names : list string) (axes : list (Axis num)) :
  NoDup (ax_label <$> axes) →
  dataset_order names axes ≡ₚ axes.
Proof.
  intros Hnodup. apply NoDup_Permutation.
  - eapply NoDup_fmap_1, NoDup_dataset_order, Hnodup.
  - by eapply NoDup_fmap_1.
  - intros a. by apply elem_of_dataset_order.
Qed.

Lemma remove_dups_NoDup {A : Type} `{EqDecision A} (l : list A) :
  NoDup l → remove_dups l = l.
Proof.
  induction l as [|x l IH]; [done|].
  intros [Hx Hnodup]%NoDup_cons. simpl.
  destruct (decide_rel elem_of x l) as [?|_]; [done|]. by rewrite IH.
Qed.

Lemma filter_none {A : Type} (P : A → Prop) `{∀ x, Decision (P x)} (l : list A) :
  (∀ x, x ∈ l → ¬ P x) → filter P l = [].
Proof.
  induction l as [|x l IH]; intros Hnone; [done|].
  rewrite filter_cons, decide_False by (apply Hnone; left).
  apply IH. intros y Hy. apply Hnone. by right.
Qed.

(** When the coordinates were attached in the order of the dimensions, the
    dataset has the dimensions in the order of the array. *)
Lemma dataset_order_id (axes : list (Axis num)) :
  NoDup (ax_label <$> axes) →
  dataset_order (ax_label <$> axes) axes = axes.
Proof.
  intros Hnodup. unfold dataset_order.
  rewrite remove_dups_NoDup by done.
  rewrite filter_none, app_nil_r.
  - assert (Hall : ∀ l : list (Axis num),
              (∀ a, a ∈ l →
                    find (λ b, bool_decide (ax_label b = ax_label a)) axes = Some a) →
              omap (λ d, find (λ b, bool_decide (ax_label b = d)) axes)
                   (ax_label <$> l) = l).
    { induction l as [|a l IH]; intros Hl; [done|].
      rewrite fmap_cons. simpl. rewrite (Hl a) by left.
      f_equal. apply IH. intros b Hb. apply Hl. by right. }
    apply Hall. intros a [i Hi]%list_elem_of_lookup.
    by eapply find_axis_by_label.
  - intros a Ha Hout. apply Hout. apply list_elem_of_fmap. by exists a.
Qed.


(** ** The coordinate transformations *)


(** ** The document *)

Lemma ngff_axis_record (image : Dataset num) (i : nat) a :
  NoDup (ds_dims image) → ds_axes image !! i = Some a →
  ngff_axis image (ax_label a) = axis_record a.
Proof.
  intros Hnodup Hi. unfold ngff_axis, axis_record, ds_coords, axis_kind.
  rewrite (find_axis_by_label _ i a Hnodup Hi).
  destruct (co_attrs (ax_coord a) !! "units") as [units|];
    repeat case_decide;
    repeat match goal with Heq : ax_label a = _ |- _ => rewrite Heq end; done.
Qed.

Lemma ngff_axes_records (image : Dataset num) :
  NoDup (ds_dims image) →
  ngff_axis image <$> ds_dims image = axis_record <$> ds_axes image.
Proof.
  intros Hnodup. unfold ds_dims. rewrite <- list_fmap_compose.
  apply list_fmap_ext. intros i a Hi. by apply (ngff_axis_record image i).
Qed.

Lemma ngff_metadata_levels (name : string) (levels : list (DataArray num))
    (level0 : DataArray num) (root : Dataset num) :
  ngff_metadata {| ms_name := "multiscales"; ms_ds := root;
                   ms_children := imap (level_node name) (level0 :: levels) |} =
  Some [("multiscales",
         JList [JDict [("version", JStr "0.4");
                       ("name", JStr name);
                       ("axes", JList (ngff_axis (to_dataset name level0)
                                         <$> ds_dims (to_dataset name level0)));
                       ("datasets",
                        JList (ngff_dataset name
                                 <$> imap (level_node name) (level0 :: levels)))]])].
Proof. done. Qed.

Lemma ngff_metadata_children self first (rest : list (TreeNode num)) :
  ms_children self = first :: rest →
  ngff_metadata self = Some (document_of self first).
Proof.
  intros Hchildren. unfold ngff_metadata, document_of.
  rewrite Hchildren. reflexivity.
Qed.

Section PersistProperties.
Context {Store KwArg E : Type}.
Variable super_to_zarr :
  MultiscaleSpatialImage num → Store → option string → option (json num) →
  list (string * KwArg) → option E.

Lemma to_zarr_attrs self (store : Store)
    (mode : string) (encoding : option (json num)) (kwargs : list (string * KwArg))
    (document : list (string * json num)) :
  ngff_metadata self = Some document →
  (to_zarr super_to_zarr self store mode encoding kwargs).1 =
    set_root_attrs self document.
Proof.
  intros Hdoc. unfold to_zarr. rewrite Hdoc.
  by destruct (super_to_zarr _ store None None kwargs).
Qed.

(** The call ends the same way and leaves the same container whatever
    [mode] and [encoding] the caller gives. *)
Lemma to_zarr_mode_encoding_irrelevant self
    (store : Store) (mode mode' : string) (encoding encoding' : option (json num))
    (kwargs : list (string * KwArg)) :
  to_zarr super_to_zarr self store mode encoding kwargs =
  to_zarr super_to_zarr self store mode' encoding' kwargs.
Proof. done. Qed.

(** C8. After [to_zarr] on the container that [to_multiscale] built from
    [N] scale factors, the root's attrs are one multiscale record for the
    image's name, whose [datasets] list has [N + 1] entries, entry [k]
    having the path ["k/<name>"]. *)
Theorem to_zarr_datasets_paths image
    (scale_factors : list ScaleFactor) (method : option Method)
    (chunks : option ChunkSpec) ms (store : Store)
    (mode : string) (encoding : option (json num)) (kwargs : list (string * KwArg)) :
  to_multiscale image scale_factors method chunks = Some ms →
  ∃ axes datasets,
    ds_attrs (ms_ds (to_zarr super_to_zarr ms store mode encoding kwargs).1) =
      [("multiscales",
        JList [JDict [("version", JStr "0.4");
                      ("name", JStr (da_name image));
                      ("axes", JList axes);
                      ("datasets", JList datasets)]])] ∧
    length datasets = S (length scale_factors) ∧
    ∀ k, k ≤ length scale_factors →
      ∃ transforms,
        datasets !! k =
          Some (JDict [("path", JStr (pretty k +:+ "/" +:+ da_name image));
                       ("coordinateTransformations", transforms)]).
Proof.
  intros Hms.
  apply to_multiscale_children in Hms as (rechunked & levels & _ & Hlevels & ->).
  apply length_mapM in Hlevels.
  eexists _, _. split.
  { erewrite to_zarr_attrs by apply ngff_metadata_levels. done. }
  split; [by rewrite length_fmap, length_imap; simpl; rewrite Hlevels|].
  intros k Hk. rewrite list_lookup_fmap, list_lookup_imap.
  destruct ((rechunked :: levels) !! k) as [level|] eqn:Hlevel.
  - by eexists.
  - apply lookup_ge_None in Hlevel. simpl in Hlevel. lia.
Qed.

(** C10. [to_zarr] assigns the freshly assembled document (the one entry
    "multiscales" with one record per variable of the first child) to the
    root's attrs, whatever the attrs were before, and only then calls the
    writer, which is handed the container with the new attrs: when the
    writer raises, the call raises the same error and the container is left
    with the document as its root attrs, its earlier attrs gone. *)
Theorem to_zarr_attrs_replaced_before_write self first
    (rest : list (TreeNode num)) (store : Store) (mode : string)
    (encoding : option (json num)) (kwargs : list (string * KwArg)) (e : E) :
  ms_children self = first :: rest →
  super_to_zarr (set_root_attrs self (document_of self first)) store None None kwargs
    = Some e →
  to_zarr super_to_zarr self store mode encoding kwargs =
    (set_root_attrs self (document_of self first), Raised (StoreError e)) ∧
  ds_attrs (ms_ds (to_zarr super_to_zarr self store mode encoding kwargs).1) =
    [("multiscales",
      JList ((λ name,
                JDict [("version", JStr "0.4");
                       ("name", JStr name);
                       ("axes", JList (ngff_axis (node_ds first)
                                         <$> ds_dims (node_ds first)));
                       ("datasets",
                        JList (ngff_dataset name <$> ms_children self))])
               <$> (ds_data_vars (node_ds first)).*1))] ∧
  (∀ attrs, document_of (set_root_attrs self attrs) first = document_of self first).
Proof.
  intros Hchildren Hraise.
  assert (Hcall : to_zarr super_to_zarr self store mode encoding kwargs =
                  (set_root_attrs self (document_of self first),
                   Raised (StoreError e))).
  { unfold to_zarr.
    by rewrite (ngff_metadata_children _ _ _ Hchildren), Hraise. }
  split; [done|]. by rewrite Hcall.
Qed.

(** X9. On the container that [to_multiscale] built from an image with
    unique dimension labels, the [axes] list of the document has one record
    per dimension of the input image, in the dimension order of the first
    level's dataset (the order of the input when its coordinates were
    attached in that order): the label as [name]; [type] "time" for "t",
    "channel" for "c" and "space" for every other label; and a [unit]
    exactly when the coordinate of that dimension has a "units" attribute,
    with that value. *)
Theorem to_zarr_axes image (scale_factors : list ScaleFactor)
    (method : option Method) (chunks : option ChunkSpec)
    ms (store : Store) (mode : string)
    (encoding : option (json num)) (kwargs : list (string * KwArg)) :
  NoDup (dims image) →
  to_multiscale image scale_factors method chunks = Some ms →
  (∃ datasets,
    ds_attrs (ms_ds (to_zarr super_to_zarr ms store mode encoding kwargs).1) =
      [("multiscales",
        JList [JDict [("version", JStr "0.4");
                      ("name", JStr (da_name image));
                      ("axes",
                       JList (axis_record
                                <$> dataset_order (da_coord_names image)
                                      (da_axes image)));
                      ("datasets", JList datasets)]])]) ∧
  dataset_order (da_coord_names image) (da_axes image) ≡ₚ da_axes image ∧
  (da_coord_names image = dims image →
   dataset_order (da_coord_names image) (da_axes image) = da_axes image).
Proof.
  intros Hnodup Hms.
  apply to_multiscale_children in Hms as (rechunked & levels & Hre & _ & ->).
  apply chunk_Some_inv in Hre as ->.
  split; [|split].
  - eexists. erewrite to_zarr_attrs by apply ngff_metadata_levels.
    cbn [set_root_attrs ms_ds ds_attrs].
    rewrite ngff_axes_records; [reflexivity|].
    unfold ds_dims. cbn [to_dataset ds_axes da_axes da_coord_names].
    by apply NoDup_dataset_order.
  - by apply dataset_order_Permutation.
  - intros ->. by apply dataset_order_id.
Qed.

(** X10. A container without children cannot be persisted: [to_zarr] raises
    [IndexError], leaves the container as it was, and the outcome does not
    depend on the writer. *)
Theorem to_zarr_no_children self (store : Store)
    (mode : string) (encoding : option (json num)) (kwargs : list (string * KwArg)) :
  ms_children self = [] →
  to_zarr super_to_zarr self store mode encoding kwargs = (self, Raised IndexError).
Proof.
  intros Hnone. unfold to_zarr, ngff_metadata. by rewrite Hnone.
Qed.

(** X11. [to_zarr] touches nothing but the root's attrs: however the call
    ends, the container keeps its name, its children and the variables and
    dimensions of its root. *)
Theorem to_zarr_keeps_tree self (store : Store)
    (mode : string) (encoding : option (json num)) (kwargs : list (string * KwArg)) :
  let after := (to_zarr super_to_zarr self store mode encoding kwargs).1 in
  ms_name after = ms_name self ∧
  ms_children after = ms_children self ∧
  ds_data_vars (ms_ds after) = ds_data_vars (ms_ds self) ∧
  ds_axes (ms_ds after) = ds_axes (ms_ds self).
Proof.
  unfold to_zarr. destruct (ngff_metadata self) as [document|]; [|done].
  by destruct (super_to_zarr _ store None None kwargs).
Qed.

(** X12. The document depends on the children alone, not on the root's
    earlier attrs: persisting twice, with any arguments and whatever the
    writer does, leaves the container as persisting once left it. *)
Theorem to_zarr_twice self (store store' : Store)
    (mode mode' : string) (encoding encoding' : option (json num))
    (kwargs kwargs' : list (string * KwArg)) :
  (to_zarr super_to_zarr
     (to_zarr super_to_zarr self store mode encoding kwargs).1
     store' mode' encoding' kwargs').1 =
  (to_zarr super_to_zarr self store mode encoding kwargs).1.
Proof.
  destruct (ngff_metadata self) as [document|] eqn:Hdoc.
  - rewrite (to_zarr_attrs self _ _ _ _ document Hdoc).
    by rewrite (to_zarr_attrs (set_root_attrs self document) _ _ _ _ document).
  - assert (Hfail : ∀ s m e k,
               to_zarr super_to_zarr self s m e k = (self, Raised IndexError))
      by (intros; unfold to_zarr; by rewrite Hdoc).
    by rewrite !Hfail.
Qed.

(** X13. For any container with at least one child, the document has one
    record per variable of the first child, in order and under that
    variable's name; each record has one [datasets] entry per child, in
    order, with the path ["<child name>/<variable name>"], and one [axes]
    entry per dimension of the first child. *)
Theorem to_zarr_records self first
    (rest : list (TreeNode num)) (store : Store) (mode : string)
    (encoding : option (json num)) (kwargs : list (string * KwArg)) :
  ms_children self = first :: rest →
  ∃ records,
    ds_attrs (ms_ds (to_zarr super_to_zarr self store mode encoding kwargs).1) =
      [("multiscales", JList records)] ∧
    length records = length (ds_data_vars (node_ds first)) ∧
    ∀ i name arr, ds_data_vars (node_ds first) !! i = Some (name, arr) →
      ∃ axes datasets,
        records !! i = Some (JDict [("version", JStr "0.4");
                                    ("name", JStr name);
                                    ("axes", JList axes);
                                    ("datasets", JList datasets)]) ∧
        length axes = length (ds_dims (node_ds first)) ∧
        length datasets = length (ms_children self) ∧
        ∀ k child, ms_children self !! k = Some child →
          ∃ transforms,
            datasets !! k =
              Some (JDict [("path", JStr (node_name child +:+ "/" +:+ name));
                           ("coordinateTransformations", transforms)]).
Proof.
  intros Hchildren.
  pose proof (ngff_metadata_children _ _ _ Hchildren) as Hdoc.
  eexists. split; [by rewrite (to_zarr_attrs self _ _ _ _ _ Hdoc)|].
  split; [by rewrite !length_fmap|].
  intros i name arr Hi. eexists _, _.
  split; [by rewrite !list_lookup_fmap, Hi|].
  split; [by rewrite length_fmap|].
  split; [by rewrite length_fmap|].
  intros k child Hk. eexists. by rewrite list_lookup_fmap, Hk.
Qed.

End PersistProperties.

End Properties.

(** * The properties on sample arrays *)

Lemma exact_mean_singleton (x : Q) : mean [x] = x.
Proof.
  destruct x as [n d]. unfold mean, exact, Qdiv, Qmult, Qplus, Qinv, inject_Z.
  simpl. f_equal; lia.
Qed.

(** C1, on four samples along x with the factors [2, 2].  [to_multiscale]
    gives level 2 the extent and values of level 1: both are the input
    halved once.  In the cumulative pyramid level 2 is level 1 halved. *)
Theorem to_multiscale_levels_not_cumulative :
  ∃ ms levels,
    to_multiscale (line 4) [SFInt 2; SFInt 2] None None = Some ms ∧
    level_arrays ms =
      [("0", [4], [0; 1; 2; 3]%Q);
       ("1", [2], [1 # 2; 5 # 2]%Q);
       ("2", [2], [1 # 2; 5 # 2]%Q)] ∧
    cumulative_levels (line 4) (line 4) (default_chunks (line 4))
      [SFInt 2; SFInt 2] = Some levels ∧
    level_summary levels =
      [([2], [1 # 2; 5 # 2]%Q);
       ([1], [3 # 2]%Q)].
Proof.
  eexists _, _. split; [vm_compute; reflexivity|].
  split; [reflexivity|].
  split; [vm_compute; reflexivity|]. reflexivity.
Qed.

(** C2, with a writer that reports the [mode] and [encoding] it was called
    with: a caller asks for mode ["a"] and an encoding, and the writer is
    called with neither. *)
Theorem to_zarr_mode_encoding_not_forwarded :
  ∃ ms,
    to_multiscale (line 4) [SFInt 2] None None = Some ms ∧
    (to_zarr reporting_writer ms tt "a"
       (Some (JDict [("multiscales/0/image", JDict [("dtype", JStr "int16")])]))
       []).2 =
    Raised (StoreError (None, None)).
Proof. eexists. split; [vm_compute; reflexivity|]. reflexivity. Qed.



Lemma to_multiscale_level_count_witness :
  ∃ ms,
    to_multiscale (grid 4 6) [SFInt 2; SFDict {[ "x" := 3%Z ]}] None None = Some ms ∧
    length (ms_children ms) = 3.
Proof.
  eexists. split; [vm_compute; reflexivity|].
  apply (to_multiscale_level_count (grid 4 6)
           [SFInt 2; SFDict {[ "x" := 3%Z ]}] None None).
  vm_compute; reflexivity.
Defined.




Lemma to_zarr_datasets_paths_witness :
  ∃ ms,
    to_multiscale (grid 4 6) [SFInt 2; SFDict {[ "x" := 3%Z ]}] None None = Some ms ∧
    ∃ axes datasets,
      ds_attrs (ms_ds (to_zarr reporting_writer ms tt "w" None []).1) =
        [("multiscales",
          JList [JDict [("version", JStr "0.4");
                        ("name", JStr "image");
                        ("axes", JList axes);
                        ("datasets", JList datasets)]])] ∧
      length datasets = 3 ∧
      ∀ k, k ≤ 2 →
        ∃ transforms,
          datasets !! k =
            Some (JDict [("path", JStr (pretty k +:+ "/" +:+ "image"));
                         ("coordinateTransformations", transforms)]).
Proof.
  eexists. split; [vm_compute; reflexivity|].
  apply (to_zarr_datasets_paths reporting_writer (grid 4 6)
           [SFInt 2; SFDict {[ "x" := 3%Z ]}] None None).
  vm_compute; reflexivity.
Defined.

Lemma to_multiscale_without_spatial_dims_witness :
  ∃ ms,
    ("x" ∉ dims spectra) ∧ ("y" ∉ dims spectra) ∧ ("z" ∉ dims spectra) ∧
    to_multiscale spectra (SFInt <$> [2; 0; -3]%Z) None None = Some ms ∧
    length (ms_children ms) = 4 ∧
    Forall (λ child, ∃ arr,
              ds_data_vars (node_ds child) = [("image", arr)] ∧
              same_values arr spectra ∧
              da_data arr = ramp 6)
           (ms_children ms).
Proof.
  eexists. do 3 (split; [by_compute|]). split; [vm_compute; reflexivity|].
  apply (to_multiscale_without_spatial_dims spectra [2; 0; -3]%Z None None);
    [by_compute|by_compute|by_compute|vm_compute; reflexivity].
Defined.

Lemma to_zarr_attrs_replaced_before_write_witness :
  ∃ ms first rest,
    to_multiscale (line 4) [SFInt 2] None None = Some ms ∧
    ms_children (annotated ms) = first :: rest ∧
    ds_attrs (ms_ds (annotated ms)) = [("note", JStr "earlier")] ∧
    reporting_writer (set_root_attrs (annotated ms) (document_of (annotated ms) first))
      tt None None [] = Some (None, None) ∧
    to_zarr reporting_writer (annotated ms) tt "w" None [] =
      (set_root_attrs (annotated ms) (document_of (annotated ms) first),
       Raised (StoreError (None, None))) ∧
    ds_attrs (ms_ds (to_zarr reporting_writer (annotated ms) tt "w" None []).1) =
      [("multiscales",
        JList [JDict [("version", JStr "0.4");
                      ("name", JStr "image");
                      ("axes", JList (ngff_axis (node_ds first)
                                        <$> ds_dims (node_ds first)));
                      ("datasets",
                       JList (ngff_dataset "image" <$> ms_children ms))]])].
Proof.
  eexists _, _, _. split; [vm_compute; reflexivity|].
  split; [reflexivity|]. split; [reflexivity|]. split; [reflexivity|].
  match goal with
  | |- to_zarr _ (annotated ?ms) _ _ _ _ = (set_root_attrs _ (document_of _ ?first), _) ∧ _ =>
      destruct (to_zarr_attrs_replaced_before_write reporting_writer
                  (annotated ms) first (tl (ms_children ms)) tt "w" None []
                  (None, None) eq_refl eq_refl)
        as (Hcall & Hattrs & _)
  end.
  split; [exact Hcall|exact Hattrs].
Defined.

Lemma to_multiscale_levels_chunked_witness :
  ∃ ms,
    to_multiscale (grid 4 6) [SFInt 2; SFDict {[ "x" := 3%Z ]}] None None = Some ms ∧
    Forall (λ child, ∃ level,
              ds_data_vars (node_ds child) = [("image", level)] ∧
              da_name level = "image" ∧
              da_chunks level = Some (default_chunks (grid 4 6)))
           (ms_children ms).
Proof.
  eexists. split; [vm_compute; reflexivity|].
  apply (to_multiscale_levels_chunked (grid 4 6)
           [SFInt 2; SFDict {[ "x" := 3%Z ]}] None None).
  vm_compute; reflexivity.
Defined.


Lemma to_multiscale_levels_not_larger_witness :
  ∃ ms,
    to_multiscale (grid 4 6) [SFInt 2; SFInt 4] None None = Some ms ∧
    Forall (λ child, ∃ level,
              ds_data_vars (node_ds child) = [("image", level)] ∧
              Forall2 (λ a' a, ax_label a' = ax_label a ∧ extent a' ≤ extent a)
                      (da_axes level) (da_axes (grid 4 6)))
           (ms_children ms).
Proof.
  eexists. split; [vm_compute; reflexivity|].
  apply (to_multiscale_levels_not_larger (grid 4 6) [SFInt 2; SFInt 4] None None).
  vm_compute; reflexivity.
Defined.

Lemma to_multiscale_child_names_witness :
  ∃ ms,
    to_multiscale (grid 4 6) [SFInt 2; SFInt 4] None None = Some ms ∧
    ms_name ms = "multiscales" ∧
    node_name <$> ms_children ms = pretty <$> seq 0 3 ∧
    NoDup (node_name <$> ms_children ms).
Proof.
  eexists. split; [vm_compute; reflexivity|].
  apply (to_multiscale_child_names (grid 4 6) [SFInt 2; SFInt 4] None None).
  vm_compute; reflexivity.
Defined.

Lemma default_chunks_entries_witness :
  NoDup (dims timelapse) ∧
  default_chunks timelapse =
    ChunkMapping ((λ d, (d, default_chunk timelapse d)) <$> dims timelapse).
Proof.
  split; [by_compute|]. apply (default_chunks_entries timelapse). by_compute.
Defined.

Lemma to_multiscale_unknown_dimension_witness :
  [SFInt 2; SFDict {[ "z" := 2%Z ]}] !! 1%nat = Some (SFDict {[ "z" := 2%Z ]}) ∧
  is_Some (({[ "z" := 2%Z ]} : gmap string Z) !! "z") ∧
  ("z" ∉ dims (grid 4 6)) ∧
  to_multiscale (grid 4 6) [SFInt 2; SFDict {[ "z" := 2%Z ]}] None None = None.
Proof.
  split; [reflexivity|]. split; [by eexists|]. split; [by_compute|].
  apply (to_multiscale_unknown_dimension (grid 4 6)
           [SFInt 2; SFDict {[ "z" := 2%Z ]}] None None 1 {[ "z" := 2%Z ]} "z");
    [reflexivity|by eexists|by_compute].
Defined.

Lemma to_multiscale_nonpositive_factor_witness :
  [SFInt 2; SFInt 0] !! 1%nat = Some (SFInt 0) ∧
  (0%Z = 0%Z ∧ "x" ∈ _spatial_dims ∧ "x" ∈ dims (grid 4 6)) ∧
  (0 ≤ 0)%Z ∧
  to_multiscale (grid 4 6) [SFInt 2; SFInt 0] None None = None.
Proof.
  split; [reflexivity|].
  split; [split; [reflexivity|split; by_compute]|]. split; [lia|].
  apply (to_multiscale_nonpositive_factor (grid 4 6) [SFInt 2; SFInt 0]
           None None 1 (SFInt 0) "x" 0);
    [reflexivity|split; [reflexivity|split; by_compute]|lia].
Defined.

Lemma to_zarr_axes_witness :
  NoDup (dims timelapse) ∧
  ∃ ms,
    to_multiscale timelapse [SFInt 2] None None = Some ms ∧
    (∃ datasets,
      ds_attrs (ms_ds (to_zarr accepting_writer ms tt "w" None []).1) =
        [("multiscales",
          JList [JDict [("version", JStr "0.4");
                        ("name", JStr "cells");
                        ("axes",
                         JList (axis_record
                                  <$> dataset_order (da_coord_names timelapse)
                                        (da_axes timelapse)));
                        ("datasets", JList datasets)]])]) ∧
    dataset_order (da_coord_names timelapse) (da_axes timelapse)
      ≡ₚ da_axes timelapse ∧
    (da_coord_names timelapse = dims timelapse →
     dataset_order (da_coord_names timelapse) (da_axes timelapse)
       = da_axes timelapse).
Proof.
  split; [by_compute|].
  eexists. split; [vm_compute; reflexivity|].
  apply (to_zarr_axes accepting_writer timelapse [SFInt 2] None None);
    [by_compute|vm_compute; reflexivity].
Defined.

Lemma to_zarr_no_children_witness :
  ms_children {| ms_name := "multiscales"; ms_ds := empty_dataset (num := Q);
                 ms_children := [] |} = [] ∧
  to_zarr accepting_writer
    {| ms_name := "multiscales"; ms_ds := empty_dataset; ms_children := [] |}
    tt "w" None [] =
  ({| ms_name := "multiscales"; ms_ds := empty_dataset; ms_children := [] |},
   Raised IndexError).
Proof.
  split; [reflexivity|].
  apply (to_zarr_no_children accepting_writer). reflexivity.
Defined.

Lemma to_zarr_records_witness :
  ∃ ms first rest,
    to_multiscale (grid 4 6) [SFInt 2] None None = Some ms ∧
    ms_children ms = first :: rest ∧
    ∃ records,
      ds_attrs (ms_ds (to_zarr accepting_writer ms tt "w" None []).1) =
        [("multiscales", JList records)] ∧
      length records = length (ds_data_vars (node_ds first)).
Proof.
  eexists _, _, _. split; [vm_compute; reflexivity|]. split; [reflexivity|].
  match goal with
  | |- ∃ records, ds_attrs (ms_ds (to_zarr _ ?ms _ _ _ _).1) = _ ∧
                  _ = length (ds_data_vars (node_ds ?first)) =>
      destruct (to_zarr_records accepting_writer ms first (tl (ms_children ms))
                  tt "w" None [] eq_refl)
        as (records & Hattrs & Hlen & _)
  end.
  exists records. split; [exact Hattrs|exact Hlen].
Defined.

Lemma aggregate_factor_one_witness :
  dims movie = dims movie ∧
  factor_ok movie (SFDict {[ "x" := 1%Z; "y" := 2%Z ]}) ∧
  da_axes movie !! 2%nat = Some {| ax_label := "x"; ax_coord := plain (ramp 6) |} ∧
  ({[ "x" := 1%Z; "y" := 2%Z ]} : gmap string Z) !! "x" = Some 1%Z ∧
  ∃ out a',
    aggregate movie movie (SFDict {[ "x" := 1%Z; "y" := 2%Z ]}) = Some out ∧
    da_axes out !! 2%nat = Some a' ∧
    ax_label a' = "x" ∧
    extent a' = 6 ∧
    co_attrs (ax_coord a') = ∅ ∧
    co_values (ax_coord a') = (λ x, mean [x]) <$> ramp 6 ∧
    co_values (ax_coord a') = ramp 6.
Proof.
  split; [reflexivity|]. split; [by_compute|]. split; [reflexivity|].
  split; [reflexivity|].
  destruct (aggregate_factor_one movie movie (SFDict {[ "x" := 1%Z; "y" := 2%Z ]}) 2
              {| ax_label := "x"; ax_coord := plain (ramp 6) |})
    as (out & a' & Hout & Ha' & Hlabel & Hextent & Hattrs & Hvalues & Hsame);
    [reflexivity|by_compute|reflexivity|reflexivity|].
  exists out, a'.
  split; [exact Hout|]. split; [exact Ha'|]. split; [exact Hlabel|].
  split; [exact Hextent|]. split; [exact Hattrs|]. split; [exact Hvalues|].
  exact (Hsame exact_mean_singleton).
Defined.

Lemma to_multiscale_levels_from_input_witness :
  ∃ ms level,
    to_multiscale (line 8) [SFInt 4; SFInt 2] None None = Some ms ∧
    [SFInt 4; SFInt 2] !! 1%nat = Some (SFInt 2) ∧
    downscale (line 8) (line 8) (default_chunks (line 8)) (SFInt 2) = Some level ∧
    ms_children ms !! 2%nat = Some (level_node "image" 2 level).
Proof.
  eexists.
  assert (Hms : to_multiscale (line 8) [SFInt 4; SFInt 2] None None = Some _)
    by (vm_compute; reflexivity).
  destruct (to_multiscale_levels_from_input (line 8) [SFInt 4; SFInt 2]
              None None _ 1 (SFInt 2) Hms eq_refl) as (level & Hlevel & Hchild).
  exists level. split; [exact Hms|]. split; [reflexivity|].
  split; [exact Hlevel|exact Hchild].
Defined.
